(** * Column descriptors of root/utility/tableColumns.js

    A shallow embedding of the column-descriptor factories that the
    MusicBrainz server hands to react-table, and the properties of
    their accessors, headers and cells.

    JavaScript values are a small inductive type; objects (rows,
    entities, element props) are finite maps from property names to
    values; a JSX expression is the React element it evaluates to (its
    type, key, props and children), never a call of the component. *)

From stdpp Require Import gmap strings list fin_maps.

Local Open Scope string_scope.

(** ** JavaScript values and React elements *)

(** The components the module imports and instantiates in JSX. *)
Inductive component : Type :=
  | RatingStars
  | SortableTableHeader
  | DescriptiveLink
  | EntityLink.

(** What stands in the type position of a React element. *)
Inductive tag : Type :=
  | Host (name : string)          (* <input ... /> *)
  | Fragment                      (* <>...</> and <React.Fragment> *)
  | Component (c : component).

(** Values.  Numbers are the integers the module meets (ids, ratings,
    array indices); no arithmetic is done on them here. *)
#[warning="-register-all"]
Inductive value : Type :=
  | VUndefined
  | VNull
  | VBool (b : bool)
  | VNum (n : Z)
  | VStr (s : string)
  | VObj (fields : gmap string value)
  | VArr (items : list value)
  | VElem (type : tag) (key : option string)
          (props : gmap string value) (children : list value).

Abbreviation object := (gmap string value).

(** [a ?? b]: the right operand only when the left one is null or
    undefined. *)
Definition nullish (v : value) : bool :=
  match v with
  | VUndefined | VNull => true
  | _ => false
  end.

Definition coalesce (a b : value) : value :=
  if nullish a then b else a.

(** ToBoolean, as used by [c ? a : b]. *)
Definition truthy (v : value) : bool :=
  match v with
  | VUndefined | VNull => false
  | VBool b => b
  | VNum n => negb (n =? 0)%Z
  | VStr s => negb (String.eqb s "")
  | VObj _ | VArr _ | VElem _ _ _ _ => true
  end.

(** [o.k] on a row or entity object: the property, or undefined when
    the object has none of that name. *)
Definition get (o : object) (k : string) : value :=
  default VUndefined (o !! k).

(** [v?.k].  Null and undefined short-circuit to undefined.  On the
    other values only the data properties of plain objects are
    modelled: a boolean, number, string, array or element has no
    property of the one name ([name]) this module reads this way. *)
Definition optional_get (v : value) (k : string) : value :=
  match v with
  | VObj o => get o k
  | _ => VUndefined
  end.

(** JSX helpers: an element without key, and one with a key. *)
Definition jsx (t : tag) (props : list (string * value))
    (children : list value) : value :=
  VElem t None (list_to_map props) children.

Definition jsx_keyed (t : tag) (k : string) (props : list (string * value))
    (children : list value) : value :=
  VElem t (Some k) (list_to_map props) children.

(** ** The react-table interface

    The part of react-table's [ColumnOptions<D, V>] that the module
    fills in.  [V], the declared type of the accessed value, is a Flow
    annotation only; it is kept as an index of the descriptor type. *)

Inductive value_type : Type :=
  | TNumber
  | TString
  | TStrOrNum
  | TBoolean
  | TPartialDate.

(** What a [Cell] renderer is called with: [{cell: {value}, row:
    {original}}]. *)
Record CellProps : Type := {
  cell_value : value;
  row_original : object;
}.

(** [accessor] is a property name or a function of the row. *)
Inductive accessor_t : Type :=
  | Field (name : string)
  | Derive (f : object → value).

Record ColumnOptions (V : value_type) : Type := {
  Cell : CellProps → value;
  Header : value;
  accessor : accessor_t;
  className : option string;
  id : option string;
}.

Arguments Cell {V} _ _.
Arguments Header {V} _.
Arguments accessor {V} _.
Arguments className {V} _.
Arguments id {V} _.

(** How react-table reads a row through an accessor: a property name
    (none of the names used here is a dotted path) is looked up on the
    row, a function is applied to it. *)
Definition accessed (a : accessor_t) (row : object) : value :=
  match a with
  | Field k => get row k
  | Derive f => f row
  end.

(** The cell react-table renders for a row: [cell.value] is the
    accessed value, [row.original] the row itself. *)
Definition render_cell {V} (c : ColumnOptions V) (row : object) : value :=
  Cell c {| cell_value := accessed (accessor c) row; row_original := row |}.

(** What React puts on the page for a child: null, undefined and
    booleans render nothing; arrays and fragments render their items
    in order; anything else is a node of its own. *)
Fixpoint rendered (v : value) : list value :=
  let fix rendered_all (vs : list value) : list value :=
    match vs with
    | [] => []
    | x :: vs' => (rendered x ++ rendered_all vs')%list
    end in
  match v with
  | VUndefined | VNull | VBool _ => []
  | VArr items => rendered_all items
  | VElem Fragment _ _ children => rendered_all children
  | _ => [v]
  end.

(** The keys of the items of the array a fragment holds as its child. *)
Definition key_of (v : value) : option string :=
  match v with
  | VElem _ k _ _ => k
  | _ => None
  end.

Definition item_keys (v : value) : list (option string) :=
  match v with
  | VElem _ _ _ [VArr items] => key_of <$> items
  | _ => []
  end.

(** ** Collaborators

    Functions the module imports or finds in scope and only calls:
    the translation helpers, the date formatters and the registry of
    linked entities.  They are read-only and passed in explicitly. *)
Class Collaborators : Type := {
  l : string → value;
  N_l : string → value;
  lp_attributes : value → string → value;
  l_instrument_descriptions : value → value;
  expand2react : value → value;
  formatDate : value → value;
  formatEndDate : object → value;
  yesNo : value → value;
  (* linkedEntities.series_ordering_type[key] *)
  series_ordering_type : value → value;
}.

(** A default parameter [x = d]: the default when the argument is
    left out. *)
Definition or_default {A} (d : A) (x : option A) : A := default d x.

(** ** The columns *)

Definition defineCheckboxColumn (name : string) : ColumnOptions TNumber := {|
  Cell := λ '{| cell_value := value |},
    jsx (Host "input")
      [("name", VStr name); ("type", VStr "checkbox"); ("value", value)] [];
  Header := jsx (Host "input") [("type", VStr "checkbox")] [];
  accessor := Field "id";
  className := Some "checkbox-cell";
  id := Some "checkbox";
|}.

Definition instrumentDescriptionColumn `{Collaborators}
    : ColumnOptions TString := {|
  Cell := λ '{| cell_value := value |},
    if truthy value
    then expand2react (l_instrument_descriptions value)
    else VNull;
  Header := N_l "Description";
  accessor := Field "description";
  className := None;
  id := None;
|}.

(** [<SortableTableHeader label=... name=... order=... />] *)
Definition sortableTableHeader (label : value) (name : string)
    (order : string) : value :=
  jsx (Component SortableTableHeader)
    [("label", label); ("name", VStr name); ("order", VStr order)] [].

Definition defineNameColumn (title : string) (order : option string)
    (sortable : option bool) : ColumnOptions TString :=
  let order := or_default "" order in
  let sortable := or_default false sortable in {|
  Cell := λ '{| row_original := original |},
    jsx (Component DescriptiveLink) [("entity", VObj original)] [];
  Header :=
    if sortable
    then sortableTableHeader (VStr title) "name" order
    else VStr title;
  accessor := Field "name";
  className := None;
  id := Some "name";
|}.

Definition defineTypeColumn `{Collaborators} (typeContext : string)
    (order : option string) (sortable : option bool)
    : ColumnOptions TString :=
  let order := or_default "" order in
  let sortable := or_default false sortable in {|
  Cell := λ '{| cell_value := value |},
    if truthy value
    then lp_attributes value typeContext
    else VNull;
  Header :=
    if sortable
    then sortableTableHeader (l "Type") "type" order
    else l "Type";
  accessor := Field "typeName";
  className := None;
  id := Some "type";
|}.

(** The file declares and exports [defineTextColumn] twice.  This is
    the earlier declaration (source lines 97-118), with accessed
    values declared as [StrOrNum]; the later one (lines 148-169) is
    below.  Each is embedded on its own, under a name of its own. *)
Module Earlier.

Definition defineTextColumn (getText : object → value)
    (columnName title : string) (order : option string)
    (sortable : option bool) : ColumnOptions TStrOrNum :=
  let order := or_default "" order in
  let sortable := or_default false sortable in {|
  Cell := λ '{| row_original := original |}, getText original;
  Header :=
    if sortable
    then sortableTableHeader (VStr title) columnName order
    else VStr title;
  accessor := Derive (λ row, coalesce (getText row) (VStr ""));
  className := None;
  id := Some columnName;
|}.

End Earlier.

Definition defineEntityColumn (getEntity : object → value)
    (columnName title : string) (order : option string)
    (sortable : option bool) : ColumnOptions TString :=
  let order := or_default "" order in
  let sortable := or_default false sortable in {|
  Cell := λ '{| row_original := original |},
    let entity := getEntity original in
    if truthy entity
    then jsx (Component DescriptiveLink) [("entity", entity)] []
    else VNull;
  Header :=
    if sortable
    then sortableTableHeader (VStr title) columnName order
    else VStr title;
  accessor :=
    Derive (λ row, coalesce (optional_get (getEntity row) "name") (VStr ""));
  className := None;
  id := Some columnName;
|}.

(** The later declaration (source lines 148-169), with accessed values
    declared as [string]. *)
Definition defineTextColumn (getText : object → value)
    (columnName title : string) (order : option string)
    (sortable : option bool) : ColumnOptions TString :=
  let order := or_default "" order in
  let sortable := or_default false sortable in {|
  Cell := λ '{| row_original := original |}, getText original;
  Header :=
    if sortable
    then sortableTableHeader (VStr title) columnName order
    else VStr title;
  accessor := Derive (λ row, coalesce (getText row) (VStr ""));
  className := None;
  id := Some columnName;
|}.

Definition defineBeginDateColumn `{Collaborators} (order : option string)
    (sortable : option bool) : ColumnOptions TPartialDate :=
  let order := or_default "" order in
  let sortable := or_default false sortable in {|
  Cell := λ '{| cell_value := value |}, formatDate value;
  Header :=
    if sortable
    then sortableTableHeader (l "Begin") "begin_date" order
    else l "Begin";
  accessor := Field "begin_date";
  className := None;
  id := Some "begin_date";
|}.

Definition defineEndDateColumn `{Collaborators} (order : option string)
    (sortable : option bool) : ColumnOptions TPartialDate :=
  let order := or_default "" order in
  let sortable := or_default false sortable in {|
  Cell := λ '{| row_original := original |}, formatEndDate original;
  Header :=
    if sortable
    then sortableTableHeader (l "End") "end_date" order
    else l "End";
  accessor := Field "end_date";
  className := None;
  id := Some "end_date";
|}.

Definition ratingsColumn `{Collaborators} : ColumnOptions TNumber := {|
  Cell := λ '{| row_original := original |},
    jsx (Component RatingStars) [("entity", VObj original)] [];
  Header := N_l "Rating";
  accessor := Field "rating";
  className := None;
  id := None;
|}.

Definition seriesOrderingTypeColumn `{Collaborators}
    : ColumnOptions TNumber := {|
  Cell := λ '{| cell_value := value |},
    let orderingType := series_ordering_type value in
    if truthy orderingType
    then lp_attributes (optional_get orderingType "name")
           "series_ordering_type"
    else VNull;
  Header := N_l "Ordering Type";
  accessor := Field "orderingTypeID";
  className := None;
  id := None;
|}.

Definition subscriptionColumn `{Collaborators} : ColumnOptions TBoolean := {|
  Cell := λ '{| cell_value := value |}, yesNo value;
  Header := N_l "Subscribed";
  accessor := Field "subscribed";
  className := None;
  id := None;
|}.

(** The key of the fragment around the action at [index]. *)
Definition action_key (actionPair : string * string) (index : nat) : string :=
  actionPair.2 ++ (if (index =? 0)%nat then "-first" else "").

(** [<EntityLink content=... entity=... subPath=... />] *)
Definition entityLink (original : object) (actionPair : string * string)
    : value :=
  jsx (Component EntityLink)
    [("content", VStr actionPair.1); ("entity", VObj original);
     ("subPath", VStr actionPair.2)] [].

Definition defineActionsColumn `{Collaborators}
    (actions : list (string * string)) : ColumnOptions TNumber := {|
  Cell := λ '{| row_original := original |},
    jsx Fragment []
      [VArr (imap (λ index actionPair,
         jsx_keyed Fragment (action_key actionPair index) []
           [ (if (index =? 0)%nat then VNull else VStr " | ");
             entityLink original actionPair ])
         actions)];
  Header := l "Actions";
  accessor := Field "id";
  className := Some "actions";
  id := Some "actions";
|}.

(** The names the module declares at its top level and exports, one
    for each [export function] and [export const], in source order
    (lines 24, 42, 51, 74, 97, 120, 148, 171, 191, 211, 218, 230,
    237). *)
Definition exported_names : list string :=
  [ "defineCheckboxColumn"; "instrumentDescriptionColumn";
    "defineNameColumn"; "defineTypeColumn"; "defineTextColumn";
    "defineEntityColumn"; "defineTextColumn"; "defineBeginDateColumn";
    "defineEndDateColumn"; "ratingsColumn"; "seriesOrderingTypeColumn";
    "subscriptionColumn"; "defineActionsColumn" ].

(** A module is accepted only if no name is declared, or exported,
    twice at its top level; otherwise it is refused before any of it
    runs. *)
Definition module_accepted (names : list string) : bool :=
  bool_decide (NoDup names).

(** ** Notions the properties are stated with *)

(** The items of a list with [sep] between consecutive ones and none
    before the first. *)
Fixpoint separated {A} (sep : A) (xs : list A) : list A :=
  match xs with
  | [] => []
  | [x] => [x]
  | x :: xs' => x :: sep :: separated sep xs'
  end.

(** Two descriptors that a table cannot tell apart: same header, same
    accessed value for every row, same cell for every cell argument. *)
Definition same_behaviour {V W} (c : ColumnOptions V) (d : ColumnOptions W)
    : Prop :=
  Header c = Header d ∧
  (∀ row, accessed (accessor c) row = accessed (accessor d) row) ∧
  (∀ props, Cell c props = Cell d props).

(** The header of a column made by [column], which takes the order
    token and the sortable flag last: with the flag on, a
    [SortableTableHeader] labelled [title], named after the column's
    [id] and carrying the order token (the empty string when none is
    given); with the flag off or left out, [title] itself. *)
Definition header_follows_sortable {V}
    (column : option string → option bool → ColumnOptions V)
    (title : value) (field : string) : Prop :=
  (∀ order sortable, id (column order sortable) = Some field) ∧
  (∀ order : string, ∃ attributes : object,
     Header (column (Some order) (Some true))
       = VElem (Component SortableTableHeader) None attributes [] ∧
     attributes !! "label" = Some title ∧
     attributes !! "name" = Some (VStr field) ∧
     attributes !! "order" = Some (VStr order)) ∧
  (∃ attributes : object,
     Header (column None (Some true))
       = VElem (Component SortableTableHeader) None attributes [] ∧
     attributes !! "label" = Some title ∧
     attributes !! "name" = Some (VStr field) ∧
     attributes !! "order" = Some (VStr "")) ∧
  (∀ order, Header (column order (Some false)) = title) ∧
  (∀ order, Header (column order None) = title).

(** Translation helpers that hand the key back, to run the columns on
    concrete rows. *)
Definition untranslated : Collaborators := {|
  l := VStr;
  N_l := VStr;
  lp_attributes := λ v _, v;
  l_instrument_descriptions := λ v, v;
  expand2react := λ v, v;
  formatDate := λ v, v;
  formatEndDate := λ row, get row "end_date";
  yesNo := λ v, VStr (if truthy v then "Yes" else "No");
  series_ordering_type := λ _, VUndefined;
|}.

(** [v] is an [EntityLink] element that carries the label of
    [actionPair] as its content, [row] as its entity and the path of
    [actionPair] as its sub-path, and no other attribute, key or
    child. *)
Definition links_to (row : object) (actionPair : string * string)
    (v : value) : Prop :=
  ∃ attributes : object,
    v = VElem (Component EntityLink) None attributes [] ∧
    attributes !! "content" = Some (VStr actionPair.1) ∧
    attributes !! "entity" = Some (VObj row) ∧
    attributes !! "subPath" = Some (VStr actionPair.2) ∧
    size attributes = 3.

(** A registry of series ordering types keyed by numeric id, with the
    other helpers handing their argument back, to run the
    ordering-type column on concrete rows. *)
Definition with_ordering_types (registry : gmap Z value) : Collaborators := {|
  l := VStr;
  N_l := VStr;
  lp_attributes := λ v _, v;
  l_instrument_descriptions := λ v, v;
  expand2react := λ v, v;
  formatDate := λ v, v;
  formatEndDate := λ row, get row "end_date";
  yesNo := λ v, VStr (if truthy v then "Yes" else "No");
  series_ordering_type := λ v,
    match v with
    | VNum n => default VUndefined (registry !! n)
    | _ => VUndefined
    end;
|}.

(** A column whose cell is settled by one property of the row: rows
    that agree on [field] get the same cell. *)
Definition reads_only {V} (c : ColumnOptions V) (field : string) : Prop :=
  ∀ row row' : object,
    get row field = get row' field → render_cell c row = render_cell c row'.

(** A column whose cell is drawn from the row alone, whatever value
    the accessor produced for it. *)
Definition ignores_value {V} (c : ColumnOptions V) : Prop :=
  ∀ (v v' : value) (original : object),
    Cell c {| cell_value := v; row_original := original |}
    = Cell c {| cell_value := v'; row_original := original |}.

(** A factory whose order token and sortable flag reach the header
    and nothing else of the descriptor. *)
Definition flags_reach_header_only {V}
    (column : option string → option bool → ColumnOptions V) : Prop :=
  ∀ order order' sortable sortable',
    (∀ props,
       Cell (column order sortable) props
       = Cell (column order' sortable') props) ∧
    accessor (column order sortable) = accessor (column order' sortable') ∧
    id (column order sortable) = id (column order' sortable') ∧
    className (column order sortable) = className (column order' sortable').

(** Links and separators among rendered nodes. *)
Definition is_link (v : value) : bool :=
  match v with
  | VElem (Component EntityLink) _ _ _ => true
  | _ => false
  end.

Definition is_separator (v : value) : bool :=
  match v with
  | VStr s => String.eqb s " | "
  | _ => false
  end.

(** ** Basic facts *)

Lemma coalesce_not_nullish (a : value) (s : string) :
  nullish (coalesce a (VStr s)) = false.
Proof. unfold coalesce. destruct (nullish a) eqn:E; [reflexivity | exact E]. Qed.

Lemma nullish_true (v : value) :
  nullish v = true ↔ v = VNull ∨ v = VUndefined.
Proof.
  split.
  - destruct v; simpl; intros E; try discriminate E; auto.
  - intros [-> | ->]; reflexivity.
Qed.

Lemma nullish_false (v : value) :
  nullish v = false ↔ v ≠ VNull ∧ v ≠ VUndefined.
Proof.
  split.
  - intros E; split; intros ->; discriminate E.
  - intros [Hn Hu]. destruct v; simpl; congruence.
Qed.

Lemma coalesce_present (a b : value) :
  a ≠ VNull → a ≠ VUndefined → coalesce a b = a.
Proof.
  intros Hn Hu. unfold coalesce.
  destruct (nullish a) eqn:E; [| reflexivity].
  apply nullish_true in E as [-> | ->]; congruence.
Qed.

Lemma coalesce_absent (a b : value) :
  a = VNull ∨ a = VUndefined → coalesce a b = b.
Proof. intros [-> | ->]; reflexivity. Qed.

Lemma rendered_array (items : list value) :
  rendered (VArr items) = items ≫= rendered.
Proof.
  induction items as [| x items IH]; [reflexivity |].
  change (rendered (VArr (x :: items)))
    with (rendered x ++ rendered (VArr items))%list.
  rewrite IH. reflexivity.
Qed.

Lemma rendered_fragment (k : option string) (props : object)
    (children : list value) :
  rendered (VElem Fragment k props children) = children ≫= rendered.
Proof.
  rewrite <- rendered_array. reflexivity.
Qed.

Lemma separated_cons {A} (sep x : A) (xs : list A) :
  separated sep (x :: xs) = x :: (xs ≫= λ y, [sep; y]).
Proof.
  revert x. induction xs as [| y xs IH]; intros x; [reflexivity |].
  change (separated sep (x :: y :: xs))
    with (x :: sep :: separated sep (y :: xs)).
  rewrite IH. reflexivity.
Qed.

Lemma length_append (s t : string) :
  String.length (s ++ t) = String.length s + String.length t.
Proof. induction s as [| c s IH]; simpl; [reflexivity | rewrite IH; reflexivity]. Qed.

Lemma append_longer (s t : string) : t ≠ "" → s ++ t ≠ s.
Proof.
  intros Ht E. apply (f_equal String.length) in E.
  rewrite length_append in E.
  destruct t; [congruence | simpl in E; lia].
Qed.

Lemma append_empty (s : string) : s ++ "" = s.
Proof.
  induction s as [| c s IH]; [reflexivity |].
  change (String c (s ++ "") = String c s). f_equal. exact IH.
Qed.

(** ** Text columns *)

Example text_accessor_on_rows :
  let d := defineTextColumn (λ row, get row "comment") "comment" "Comment"
             None None in
  accessed (accessor d) {["comment" := VStr "live"]} = VStr "live" ∧
  accessed (accessor d) {["comment" := VNull]} = VStr "" ∧
  accessed (accessor d) ∅ = VStr "".
Proof. repeat split; reflexivity. Qed.

(** C1.  The accessor of a text column hands back [getText(row)] when
    that is neither null nor undefined and the empty string when it is
    null or undefined, so it is never null or undefined itself.  This
    holds for both declarations of [defineTextColumn]. *)
Theorem text_accessor_coalesces (getText : object → value)
    (columnName title : string) (order : option string)
    (sortable : option bool) (row : object) :
  let out :=
    accessed (accessor (defineTextColumn getText columnName title order
                          sortable)) row in
  let out' :=
    accessed (accessor (Earlier.defineTextColumn getText columnName title
                          order sortable)) row in
  (getText row ≠ VNull → getText row ≠ VUndefined →
     out = getText row ∧ out' = getText row) ∧
  (getText row = VNull ∨ getText row = VUndefined →
     out = VStr "" ∧ out' = VStr "") ∧
  out ≠ VNull ∧ out ≠ VUndefined ∧
  out' ≠ VNull ∧ out' ≠ VUndefined.
Proof.
  cbn. split; [| split].
  - intros Hn Hu. rewrite coalesce_present by assumption. split; reflexivity.
  - intros Hnone. rewrite coalesce_absent by assumption. split; reflexivity.
  - pose proof (coalesce_not_nullish (getText row) "") as E.
    apply nullish_false in E as [Hn Hu]. repeat split; assumption.
Qed.

Lemma text_accessor_coalesces_witness :
  let getText := λ row : object, get row "comment" in
  let present : object := {["comment" := VStr "live"]} in
  let absent : object := ∅ in
  accessed (accessor (defineTextColumn getText "comment" "Comment" None None))
    present = VStr "live" ∧
  accessed (accessor (defineTextColumn getText "comment" "Comment" None None))
    absent = VStr "".
Proof.
  intros getText present absent. split.
  - apply (text_accessor_coalesces getText "comment" "Comment" None None
             present); vm_compute; discriminate.
  - apply (text_accessor_coalesces getText "comment" "Comment" None None
             absent). right. reflexivity.
Defined.

(** C2.  The cell of a text column shows [getText(row)] as it is, also
    when it is null or undefined; for an extraction function that
    returns null the cell (null) and the accessed value (the empty
    string) differ.  This holds for both declarations of
    [defineTextColumn]. *)
Theorem text_cell_is_raw :
  (∀ (getText : object → value) columnName title order sortable,
     let d := defineTextColumn getText columnName title order sortable in
     let d' :=
       Earlier.defineTextColumn getText columnName title order sortable in
     (∀ props,
        Cell d props = getText (row_original props) ∧
        Cell d' props = getText (row_original props)) ∧
     (∀ row, render_cell d row = getText row ∧
             render_cell d' row = getText row)) ∧
  (∃ getText : object → value,
     ∀ columnName title order sortable row,
       let d := defineTextColumn getText columnName title order sortable in
       let d' :=
         Earlier.defineTextColumn getText columnName title order sortable in
       getText row = VNull ∧
       render_cell d row = VNull ∧
       accessed (accessor d) row = VStr "" ∧
       render_cell d row ≠ accessed (accessor d) row ∧
       render_cell d' row = VNull ∧
       accessed (accessor d') row = VStr "" ∧
       render_cell d' row ≠ accessed (accessor d') row).
Proof.
  split.
  - intros getText columnName title order sortable d d'. split.
    + intros [value original]. split; reflexivity.
    + intros row. split; reflexivity.
  - exists (λ _, VNull). intros columnName title order sortable row d d'.
    repeat split; cbn; discriminate.
Qed.

(** ** Entity columns *)

Example entity_accessor_on_rows :
  let d := defineEntityColumn (λ row, get row "artist") "artist" "Artist"
             None None in
  accessed (accessor d)
    {["artist" := VObj {["name" := VStr "Low"; "id" := VNum 7]}]}
    = VStr "Low" ∧
  accessed (accessor d) {["artist" := VObj {["id" := VNum 7]}]} = VStr "" ∧
  accessed (accessor d) {["artist" := VNull]} = VStr "" ∧
  accessed (accessor d) ∅ = VStr "".
Proof. repeat split; vm_compute; reflexivity. Qed.

(** C5.  The accessor of an entity column hands back the name of the
    extracted entity when [getEntity(row)] is an entity that has one,
    and the empty string when [getEntity(row)] is null or undefined or
    an entity without a name (none, or a null or undefined one). *)
Theorem entity_accessor_name_or_empty (getEntity : object → value)
    (columnName title : string) (order : option string)
    (sortable : option bool) (row : object) :
  let out :=
    accessed (accessor (defineEntityColumn getEntity columnName title order
                          sortable)) row in
  (∀ (entity : object) (name : value),
     getEntity row = VObj entity → entity !! "name" = Some name →
     name ≠ VNull → name ≠ VUndefined → out = name) ∧
  (getEntity row = VNull ∨ getEntity row = VUndefined → out = VStr "") ∧
  (∀ entity : object,
     getEntity row = VObj entity →
     entity !! "name" = None ∨ entity !! "name" = Some VNull ∨
       entity !! "name" = Some VUndefined →
     out = VStr "").
Proof.
  cbn. split; [| split].
  - intros entity name -> Hname Hn Hu. cbn. unfold get. rewrite Hname. cbn.
    apply coalesce_present; assumption.
  - intros [-> | ->]; reflexivity.
  - intros entity -> [Hname | [Hname | Hname]]; cbn; unfold get;
      rewrite Hname; reflexivity.
Qed.

Lemma entity_accessor_name_or_empty_witness :
  let getEntity := λ row : object, get row "artist" in
  let low : object := {["name" := VStr "Low"]} in
  accessed (accessor (defineEntityColumn getEntity "artist" "Artist" None
                        None)) {["artist" := VObj low]} = VStr "Low" ∧
  accessed (accessor (defineEntityColumn getEntity "artist" "Artist" None
                        None)) ∅ = VStr "" ∧
  accessed (accessor (defineEntityColumn getEntity "artist" "Artist" None
                        None)) {["artist" := VObj ∅]} = VStr "".
Proof.
  intros getEntity low. split; [| split].
  - apply (proj1 (entity_accessor_name_or_empty getEntity "artist" "Artist"
                    None None {["artist" := VObj low]}) low (VStr "Low"));
      [reflexivity | reflexivity | discriminate | discriminate].
  - apply (proj1 (proj2 (entity_accessor_name_or_empty getEntity "artist"
                           "Artist" None None ∅))).
    right. reflexivity.
  - apply (proj2 (proj2 (entity_accessor_name_or_empty getEntity "artist"
                           "Artist" None None {["artist" := VObj ∅]})) ∅);
      [reflexivity | left; reflexivity].
Defined.

(** ** Checkbox column *)

Example checkbox_cell_on_row :
  render_cell (defineCheckboxColumn "remove")
    {["id" := VNum 42; "name" := VStr "Low"]}
  = jsx (Host "input")
      [("name", VStr "remove"); ("type", VStr "checkbox"); ("value", VNum 42)]
      [].
Proof. reflexivity. Qed.

(** C8.  The accessor of a checkbox column is the row's [id]; the cell
    is a checkbox input whose value is the row's [id] and whose form
    field name is the factory's argument, whatever the row. *)
Theorem checkbox_column_reads_id (name : string) (row : object) :
  let d := defineCheckboxColumn name in
  accessor d = Field "id" ∧
  accessed (accessor d) row = get row "id" ∧
  (∀ props, ∃ attributes : object,
     Cell d props = VElem (Host "input") None attributes [] ∧
     attributes !! "value" = Some (cell_value props) ∧
     attributes !! "name" = Some (VStr name) ∧
     attributes !! "type" = Some (VStr "checkbox")) ∧
  (∃ attributes : object,
     render_cell d row = VElem (Host "input") None attributes [] ∧
     attributes !! "value" = Some (get row "id") ∧
     attributes !! "name" = Some (VStr name) ∧
     attributes !! "type" = Some (VStr "checkbox")).
Proof.
  cbn. split; [reflexivity |]. split; [reflexivity |]. split.
  - intros [value original]. eexists. split; [reflexivity |].
    repeat split; reflexivity.
  - eexists. split; [reflexivity |]. repeat split; reflexivity.
Qed.

(** ** Sortable headers *)

Example name_header_sorted :
  Header (defineNameColumn "Artist" (Some "-name") (Some true))
  = jsx (Component SortableTableHeader)
      [("label", VStr "Artist"); ("name", VStr "name");
       ("order", VStr "-name")] [].
Proof. reflexivity. Qed.

Ltac header_cases :=
  unfold header_follows_sortable; repeat apply conj; intros;
  first
    [ reflexivity
    | eexists; split; [reflexivity | repeat split; reflexivity] ].

(** C6.  For the six factories that take an order token and a sortable
    flag, the header is a sortable-header control bound to the
    column's field id and the order token when the flag is true, and
    the title itself when the flag is false. *)
Theorem sortable_flag_selects_header `{Collaborators} :
  (∀ title,
     header_follows_sortable (defineNameColumn title) (VStr title) "name") ∧
  (∀ typeContext,
     header_follows_sortable (defineTypeColumn typeContext) (l "Type")
       "type") ∧
  (∀ getText columnName title,
     header_follows_sortable (defineTextColumn getText columnName title)
       (VStr title) columnName) ∧
  (∀ getText columnName title,
     header_follows_sortable (Earlier.defineTextColumn getText columnName
                                title)
       (VStr title) columnName) ∧
  (∀ getEntity columnName title,
     header_follows_sortable (defineEntityColumn getEntity columnName title)
       (VStr title) columnName) ∧
  header_follows_sortable defineBeginDateColumn (l "Begin") "begin_date" ∧
  header_follows_sortable defineEndDateColumn (l "End") "end_date".
Proof.
  repeat apply conj; intros; header_cases.
Qed.

(** ** Cells of optional fields *)

Example type_cell_on_rows :
  let d := @defineTypeColumn untranslated "artist_type" None None in
  render_cell d {["typeName" := VStr "Group"]} = VStr "Group" ∧
  render_cell d {["typeName" := VStr ""]} = VNull ∧
  render_cell d {["name" := VStr "Low"]} = VNull.
Proof. repeat split; reflexivity. Qed.

(** C7.  For a row whose [typeName] is absent or falsy the cell of a
    type column is null, and for a row whose [description] is absent
    or falsy the cell of the description column is null: nothing is
    rendered, and no collaborator is asked for a label. *)
Theorem missing_field_renders_nothing `{Collaborators} (row : object) :
  (∀ typeContext order sortable,
     row !! "typeName" = None ∨ truthy (get row "typeName") = false →
     render_cell (defineTypeColumn typeContext order sortable) row = VNull) ∧
  (row !! "description" = None ∨ truthy (get row "description") = false →
     render_cell instrumentDescriptionColumn row = VNull).
Proof.
  split.
  - intros typeContext order sortable Hmissing.
    assert (truthy (get row "typeName") = false) as E.
    { destruct Hmissing as [Hnone | Hfalsy]; [| exact Hfalsy].
      unfold get. rewrite Hnone. reflexivity. }
    unfold render_cell. cbn. rewrite E. reflexivity.
  - intros Hmissing.
    assert (truthy (get row "description") = false) as E.
    { destruct Hmissing as [Hnone | Hfalsy]; [| exact Hfalsy].
      unfold get. rewrite Hnone. reflexivity. }
    unfold render_cell. cbn. rewrite E. reflexivity.
Qed.

Lemma missing_field_renders_nothing_witness :
  render_cell (@defineTypeColumn untranslated "artist_type" None None)
    {["name" := VStr "Low"]} = VNull ∧
  render_cell (@instrumentDescriptionColumn untranslated)
    {["description" := VStr ""]} = VNull.
Proof.
  split.
  - apply (proj1 (@missing_field_renders_nothing untranslated
                    {["name" := VStr "Low"]}) "artist_type" None None).
    left. reflexivity.
  - apply (proj2 (@missing_field_renders_nothing untranslated
                    {["description" := VStr ""]})).
    right. reflexivity.
Defined.

(** ** Actions column *)

Lemma action_item_keys `{Collaborators} (actions : list (string * string))
    (row : object) :
  item_keys (render_cell (defineActionsColumn actions) row)
  = imap (λ index actionPair, Some (action_key actionPair index)) actions.
Proof.
  unfold render_cell. cbn. rewrite fmap_imap. reflexivity.
Qed.

Lemma action_key_first (actionPair : string * string) :
  action_key actionPair 0 = actionPair.2 ++ "-first".
Proof. reflexivity. Qed.

Lemma action_key_later (actionPair : string * string) (index : nat) :
  action_key actionPair (S index) = actionPair.2.
Proof. unfold action_key. cbn. apply append_empty. Qed.

Example action_keys_edit_remove :
  item_keys (render_cell
               (@defineActionsColumn untranslated
                  [("Edit", "edit"); ("Remove", "remove")]) ∅)
  = [Some "edit-first"; Some "remove"].
Proof. reflexivity. Qed.

(** The suffix can itself produce a clash: a later path that is the
    first path followed by ["-first"]. *)
Example action_keys_suffix_clash :
  item_keys (render_cell
               (@defineActionsColumn untranslated
                  [("Edit", "edit"); ("Edit first", "edit-first")]) ∅)
  = [Some "edit-first"; Some "edit-first"].
Proof. reflexivity. Qed.

(** C3, as the code has it.  The fragment around each link carries
    the link's path as its key, with ["-first"] appended for the first
    entry only.  The suffix tells the first entry from any later entry
    with the same path; two later entries have the same key exactly
    when they have the same path. *)
Theorem action_keys_mark_first `{Collaborators}
    (actions : list (string * string)) (row : object) :
  let keys := item_keys (render_cell (defineActionsColumn actions) row) in
  length keys = length actions ∧
  (∀ p, actions !! 0 = Some p → keys !! 0 = Some (Some (p.2 ++ "-first"))) ∧
  (∀ i p, actions !! S i = Some p → keys !! S i = Some (Some p.2)) ∧
  (∀ j p q,
     actions !! 0 = Some p → actions !! S j = Some q → p.2 = q.2 →
     keys !! 0 ≠ keys !! S j) ∧
  (∀ i j p q,
     actions !! S i = Some p → actions !! S j = Some q →
     (keys !! S i = keys !! S j ↔ p.2 = q.2)).
Proof.
  intros keys. subst keys. rewrite action_item_keys.
  assert (∀ p, actions !! 0 = Some p →
            imap (λ index actionPair, Some (action_key actionPair index))
              actions !! 0 = Some (Some (p.2 ++ "-first"))) as Hfirst.
  { intros p Hp. rewrite list_lookup_imap, Hp. cbn.
    rewrite action_key_first. reflexivity. }
  assert (∀ i p, actions !! S i = Some p →
            imap (λ index actionPair, Some (action_key actionPair index))
              actions !! S i = Some (Some p.2)) as Hlater.
  { intros i p Hp. rewrite list_lookup_imap, Hp. cbn.
    rewrite action_key_later. reflexivity. }
  split; [apply length_imap |]. split; [exact Hfirst |].
  split; [exact Hlater |]. split.
  - intros j p q Hp Hq Hsame.
    rewrite (Hfirst p Hp), (Hlater j q Hq), Hsame.
    intros E. injection E as E. revert E. apply append_longer. discriminate.
  - intros i j p q Hp Hq. rewrite (Hlater i p Hp), (Hlater j q Hq).
    split; [intros E; injection E as E; exact E | intros ->; reflexivity].
Qed.

Lemma action_keys_mark_first_witness :
  let actions := [("Edit", "edit"); ("Edit again", "edit");
                  ("Remove", "remove")] in
  let keys :=
    item_keys (render_cell (@defineActionsColumn untranslated actions) ∅) in
  keys !! 0 = Some (Some "edit-first") ∧
  keys !! 1 = Some (Some "edit") ∧
  keys !! 0 ≠ keys !! 1 ∧
  (keys !! 1 = keys !! 2 ↔ "edit" = "remove").
Proof.
  intros actions keys.
  pose proof (@action_keys_mark_first untranslated actions ∅)
    as (_ & Hfirst & Hlater & Hapart & Hsame).
  split; [| split; [| split]].
  - apply (Hfirst ("Edit", "edit")). reflexivity.
  - apply (Hlater 0 ("Edit again", "edit")). reflexivity.
  - apply (Hapart 0 ("Edit", "edit") ("Edit again", "edit"));
      reflexivity.
  - apply (Hsame 0 1 ("Edit again", "edit") ("Remove", "remove"));
      reflexivity.
Defined.

(** C3, as stated, fails: two entries after the first that share a
    path get the same key. *)
Lemma action_keys_collide :
  let actions := [("Edit", "edit"); ("Merge", "merge");
                  ("Merge into", "merge")] in
  let keys :=
    item_keys (render_cell (@defineActionsColumn untranslated actions) ∅) in
  keys = [Some "edit-first"; Some "merge"; Some "merge"] ∧
  keys !! 1 = keys !! 2 ∧
  ¬ NoDup keys.
Proof.
  intros actions keys. split; [reflexivity |]. split; [reflexivity |].
  intros Hnodup. apply NoDup_cons_1_2 in Hnodup.
  apply NoDup_cons_1_1 in Hnodup. apply Hnodup. left.
Qed.

(** What the fragments of the entries from position [S start] on put
    on the page: a separator and a link each. *)
Lemma rendered_later_actions (original : object) (start : nat)
    (actions : list (string * string)) :
  imap (λ index actionPair,
          jsx_keyed Fragment (action_key actionPair (S (start + index))) []
            [ VStr " | "; entityLink original actionPair ])
       actions ≫= rendered
  = actions ≫= λ actionPair, [VStr " | "; entityLink original actionPair].
Proof.
  revert start. induction actions as [| p actions IH]; intros start;
    [reflexivity |].
  rewrite imap_cons. cbn [mbind list_bind]. f_equal.
  rewrite <- (IH (S start)). reflexivity.
Qed.

Example actions_cell_edit_remove :
  render_cell
    (@defineActionsColumn untranslated
       [("Edit", "edit"); ("Remove", "remove")]) {["id" := VNum 42]}
  = jsx Fragment []
      [VArr
         [ jsx_keyed Fragment "edit-first" []
             [VNull; entityLink {["id" := VNum 42]} ("Edit", "edit")];
           jsx_keyed Fragment "remove" []
             [VStr " | ";
              entityLink {["id" := VNum 42]} ("Remove", "remove")] ]].
Proof. reflexivity. Qed.

Lemma entityLink_links_to (row : object) (actionPair : string * string) :
  links_to row actionPair (entityLink row actionPair).
Proof.
  eexists. split; [reflexivity |]. repeat split; reflexivity.
Qed.

(** C4.  The cell of an actions column puts on the page one link per
    pair, in the order of the list, each an [EntityLink] with the
    pair's label as content, the row as entity and the pair's path as
    sub-path, with [" | "] between consecutive links and nothing
    before the first.  For [("Edit", "edit")] and [("Remove",
    "remove")] that is the Edit link, one separator and the Remove
    link, under the keys ["edit-first"] and ["remove"]. *)
Theorem actions_cell_separates_links `{Collaborators} (row : object) :
  (∀ actions : list (string * string),
     ∃ links : list value,
       rendered (render_cell (defineActionsColumn actions) row)
       = separated (VStr " | ") links ∧
       Forall2 (links_to row) actions links) ∧
  (let cell :=
     render_cell
       (defineActionsColumn [("Edit", "edit"); ("Remove", "remove")]) row in
   ∃ edit remove : object,
     rendered cell
     = [ VElem (Component EntityLink) None edit []; VStr " | ";
         VElem (Component EntityLink) None remove [] ] ∧
     edit !! "content" = Some (VStr "Edit") ∧
     edit !! "entity" = Some (VObj row) ∧
     edit !! "subPath" = Some (VStr "edit") ∧
     remove !! "content" = Some (VStr "Remove") ∧
     remove !! "entity" = Some (VObj row) ∧
     remove !! "subPath" = Some (VStr "remove") ∧
     item_keys cell = [Some "edit-first"; Some "remove"]).
Proof.
  split.
  - intros actions. exists (entityLink row <$> actions). split.
    + unfold render_cell. cbn [Cell defineActionsColumn].
      unfold jsx at 1. rewrite rendered_fragment. cbn [mbind list_bind].
      rewrite app_nil_r, rendered_array.
      destruct actions as [| p actions]; [reflexivity |].
      rewrite imap_cons, fmap_cons, separated_cons. cbn [mbind list_bind].
      change (rendered (jsx_keyed Fragment (action_key p 0) []
                          [VNull; entityLink row p]))
        with [entityLink row p].
      cbn [app]. f_equal.
      transitivity
        (actions ≫= λ actionPair, [VStr " | "; entityLink row actionPair]).
      * rewrite <- (rendered_later_actions row 0). reflexivity.
      * clear p. induction actions as [| q actions IH]; [reflexivity |].
        rewrite fmap_cons. cbn [mbind list_bind]. rewrite IH. reflexivity.
    + induction actions as [| p actions IH]; [constructor |].
      rewrite fmap_cons. constructor; [apply entityLink_links_to | exact IH].
  - cbn zeta. eexists _, _. split; [reflexivity |].
    repeat split; reflexivity.
Qed.

(** ** The two declarations of the text column *)

Example later_names_are_accepted :
  module_accepted
    [ "defineCheckboxColumn"; "instrumentDescriptionColumn";
      "defineNameColumn"; "defineTypeColumn"; "defineEntityColumn";
      "defineTextColumn" ] = true.
Proof. reflexivity. Qed.

(** C10.  The module declares and exports [defineTextColumn] twice,
    so its exported names are not pairwise different and the module
    is refused as it stands: neither declaration takes the place of
    the other.  Taken on their own, the two declarations give, for
    the same arguments, descriptors with the same header, accessed
    values and cells (and the same id and class name), declared with
    different types of accessed value, [StrOrNum] for the earlier and
    [string] for the later. *)
Theorem text_column_declared_twice :
  module_accepted exported_names = false ∧
  ¬ NoDup exported_names ∧
  exported_names !! 4 = Some "defineTextColumn" ∧
  exported_names !! 6 = Some "defineTextColumn" ∧
  (∀ (getText : object → value) (columnName title : string)
     (order : option string) (sortable : option bool),
     let earlier : ColumnOptions TStrOrNum :=
       Earlier.defineTextColumn getText columnName title order sortable in
     let later : ColumnOptions TString :=
       defineTextColumn getText columnName title order sortable in
     same_behaviour earlier later ∧
     id earlier = id later ∧
     className earlier = className later) ∧
  TStrOrNum ≠ TString.
Proof.
  assert (¬ NoDup exported_names) as Hdup.
  { intros Hnodup.
    pose proof (proj1 (NoDup_alt exported_names) Hnodup 4 6
                  "defineTextColumn" eq_refl eq_refl) as Hsame.
    discriminate Hsame. }
  split; [| split; [exact Hdup |]].
  - unfold module_accepted. apply bool_decide_eq_false. exact Hdup.
  - split; [reflexivity |]. split; [reflexivity |]. split; [| discriminate].
    intros getText columnName title order sortable earlier later.
    repeat split.
Qed.

(** ** Cells against accessed values *)

(** X1.  In a text column the cell and the accessed value of a row
    coincide exactly when [getText(row)] is neither null nor
    undefined. *)
Theorem text_cell_matches_accessor_iff (getText : object → value)
    (columnName title : string) (order : option string)
    (sortable : option bool) (row : object) :
  let d := defineTextColumn getText columnName title order sortable in
  render_cell d row = accessed (accessor d) row ↔
  getText row ≠ VNull ∧ getText row ≠ VUndefined.
Proof.
  cbn. unfold render_cell. cbn. split.
  - intros E. apply nullish_false.
    destruct (nullish (getText row)) eqn:Hnullish; [| reflexivity].
    unfold coalesce in E. rewrite Hnullish in E.
    rewrite E in Hnullish. discriminate Hnullish.
  - intros [Hn Hu]. symmetry. apply coalesce_present; assumption.
Qed.

(** X2.  The accessed value of an entity column is never null or
    undefined, whatever [getEntity] hands back. *)
Theorem entity_accessor_never_nullish (getEntity : object → value)
    (columnName title : string) (order : option string)
    (sortable : option bool) (row : object) :
  let out :=
    accessed (accessor (defineEntityColumn getEntity columnName title order
                          sortable)) row in
  out ≠ VNull ∧ out ≠ VUndefined.
Proof.
  cbn. apply nullish_false, coalesce_not_nullish.
Qed.

Example entity_cell_on_rows :
  let d := defineEntityColumn (λ row, get row "artist") "artist" "Artist"
             None None in
  render_cell d {["artist" := VObj {["id" := VNum 7]}]}
    = jsx (Component DescriptiveLink)
        [("entity", VObj {["id" := VNum 7]})] [] ∧
  render_cell d {["artist" := VNum 0]} = VNull ∧
  render_cell d ∅ = VNull.
Proof. repeat split; reflexivity. Qed.

(** X3.  The cell of an entity column is null exactly when the
    extracted entity is falsy, and then the accessed value is the
    empty string; a truthy entity, an object in particular, is shown
    as a descriptive link to that very entity, named or not. *)
Theorem entity_cell_link_or_nothing (getEntity : object → value)
    (columnName title : string) (order : option string)
    (sortable : option bool) (row : object) :
  let d := defineEntityColumn getEntity columnName title order sortable in
  (render_cell d row = VNull ↔ truthy (getEntity row) = false) ∧
  (render_cell d row = VNull → accessed (accessor d) row = VStr "") ∧
  (truthy (getEntity row) = true →
     render_cell d row
     = jsx (Component DescriptiveLink) [("entity", getEntity row)] []) ∧
  (∀ entity : object,
     getEntity row = VObj entity →
     render_cell d row
     = jsx (Component DescriptiveLink) [("entity", VObj entity)] []).
Proof.
  cbn. unfold render_cell. cbn.
  assert (truthy (getEntity row) = false →
          coalesce (optional_get (getEntity row) "name") (VStr "")
          = VStr "") as Hempty.
  { destruct (getEntity row); cbn; intros E; try reflexivity;
      discriminate E. }
  split; [| split; [| split]].
  - destruct (truthy (getEntity row)); split; intros E;
      first [reflexivity | discriminate E].
  - destruct (truthy (getEntity row)) eqn:E; intros Hcell;
      [discriminate Hcell | apply Hempty; reflexivity].
  - intros ->. reflexivity.
  - intros entity ->. reflexivity.
Qed.

Lemma entity_cell_link_or_nothing_witness :
  let getEntity := λ row : object, get row "artist" in
  let d := defineEntityColumn getEntity "artist" "Artist" None None in
  accessed (accessor d) {["artist" := VNum 0]} = VStr "" ∧
  render_cell d {["artist" := VObj ∅]}
  = jsx (Component DescriptiveLink) [("entity", VObj ∅)] [].
Proof.
  intros getEntity d. split.
  - apply (proj1 (proj2 (entity_cell_link_or_nothing getEntity "artist"
                           "Artist" None None {["artist" := VNum 0]}))).
    reflexivity.
  - apply (proj2 (proj2 (proj2 (entity_cell_link_or_nothing getEntity
                                  "artist" "Artist" None None
                                  {["artist" := VObj ∅]}))) ∅).
    reflexivity.
Defined.

(** ** What a descriptor depends on *)

(** X4.  In the six factories that take them, the order token and the
    sortable flag reach the header only: cell, accessor, id and class
    name are the same whatever their values. *)
Theorem order_and_sortable_reach_header_only `{Collaborators} :
  (∀ title, flags_reach_header_only (defineNameColumn title)) ∧
  (∀ typeContext, flags_reach_header_only (defineTypeColumn typeContext)) ∧
  (∀ getText columnName title,
     flags_reach_header_only (defineTextColumn getText columnName title)) ∧
  (∀ getEntity columnName title,
     flags_reach_header_only
       (defineEntityColumn getEntity columnName title)) ∧
  flags_reach_header_only defineBeginDateColumn ∧
  flags_reach_header_only defineEndDateColumn.
Proof.
  unfold flags_reach_header_only.
  repeat apply conj; intros; repeat apply conj; try reflexivity;
    intros [value original]; reflexivity.
Qed.

(** X5.  The checkbox, name, type, begin-date, end-date and actions
    columns carry six different ids, whatever their arguments, so they
    can stand in one table; the checkbox and the actions column read
    the same property of the row, [id], under different ids. *)
Theorem fixed_ids_are_distinct `{Collaborators} (name title typeContext : string)
    (actions : list (string * string))
    (order1 order2 order3 order4 : option string)
    (sortable1 sortable2 sortable3 sortable4 : option bool) :
  NoDup [ id (defineCheckboxColumn name);
          id (defineNameColumn title order1 sortable1);
          id (defineTypeColumn typeContext order2 sortable2);
          id (defineBeginDateColumn order3 sortable3);
          id (defineEndDateColumn order4 sortable4);
          id (defineActionsColumn actions) ] ∧
  accessor (defineCheckboxColumn name)
    = accessor (defineActionsColumn actions) ∧
  id (defineCheckboxColumn name) ≠ id (defineActionsColumn actions).
Proof.
  split; [| split; [reflexivity | discriminate]].
  cbn. repeat (apply NoDup_cons; split;
               [rewrite ?elem_of_cons, elem_of_nil; intros Hin;
                repeat (destruct Hin as [Hin | Hin]; [discriminate Hin |]);
                exact Hin |]).
  apply NoDup_nil_2.
Qed.

(** X6.  The cells of the checkbox, description, type, begin-date,
    ordering-type and subscription columns are settled by one property
    of the row each: two rows that agree on it get the same cell. *)
Theorem value_cells_read_one_field `{Collaborators} :
  (∀ name, reads_only (defineCheckboxColumn name) "id") ∧
  reads_only instrumentDescriptionColumn "description" ∧
  (∀ typeContext order sortable,
     reads_only (defineTypeColumn typeContext order sortable) "typeName") ∧
  (∀ order sortable,
     reads_only (defineBeginDateColumn order sortable) "begin_date") ∧
  reads_only seriesOrderingTypeColumn "orderingTypeID" ∧
  reads_only subscriptionColumn "subscribed".
Proof.
  unfold reads_only, render_cell.
  repeat apply conj; intros; cbn;
    match goal with Hsame : get _ _ = get _ _ |- _ => rewrite Hsame end;
    reflexivity.
Qed.

Lemma value_cells_read_one_field_witness :
  render_cell (defineCheckboxColumn "remove")
    {["id" := VNum 42; "name" := VStr "Low"]}
  = render_cell (defineCheckboxColumn "remove")
      {["id" := VNum 42; "name" := VStr "Slowdive"]} ∧
  render_cell (@defineTypeColumn untranslated "artist_type" None None)
    {["typeName" := VStr "Group"; "id" := VNum 1]}
  = render_cell (@defineTypeColumn untranslated "artist_type" None None)
      {["typeName" := VStr "Group"; "id" := VNum 2]}.
Proof.
  pose proof (@value_cells_read_one_field untranslated)
    as (Hcheckbox & _ & Htype & _).
  split.
  - apply (Hcheckbox "remove"). reflexivity.
  - apply (Htype "artist_type" None None). reflexivity.
Defined.

(** X7.  The cells of the name, text, entity, end-date, rating and
    actions columns are drawn from the row itself: the value the
    accessor produced for the cell plays no part in them. *)
Theorem row_cells_ignore_value `{Collaborators} :
  (∀ title order sortable,
     ignores_value (defineNameColumn title order sortable)) ∧
  (∀ getText columnName title order sortable,
     ignores_value
       (defineTextColumn getText columnName title order sortable)) ∧
  (∀ getEntity columnName title order sortable,
     ignores_value
       (defineEntityColumn getEntity columnName title order sortable)) ∧
  (∀ order sortable, ignores_value (defineEndDateColumn order sortable)) ∧
  ignores_value ratingsColumn ∧
  (∀ actions, ignores_value (defineActionsColumn actions)).
Proof.
  unfold ignores_value. repeat apply conj; intros; reflexivity.
Qed.

(** ** Ordering types *)

Example ordering_type_cell_on_rows :
  let registry : gmap Z value :=
    {[ 1%Z := VObj {["name" := VStr "Automatic"]} ]} in
  let column := @seriesOrderingTypeColumn (with_ordering_types registry) in
  render_cell column {["orderingTypeID" := VNum 1]} = VStr "Automatic" ∧
  render_cell column {["orderingTypeID" := VNum 2]} = VNull ∧
  render_cell column ∅ = VNull.
Proof. repeat split; reflexivity. Qed.

(** X8.  The cell of the ordering-type column is null for a row whose
    [orderingTypeID] the registry of linked entities resolves to
    nothing (or to any falsy value); when it resolves to an entity,
    the cell is the attribute label of that entity's name in the
    [series_ordering_type] context. *)
Theorem ordering_type_cell_resolves `{Collaborators} (row : object) :
  let resolved := series_ordering_type (get row "orderingTypeID") in
  (truthy resolved = false →
     render_cell seriesOrderingTypeColumn row = VNull) ∧
  (∀ entity : object,
     resolved = VObj entity →
     render_cell seriesOrderingTypeColumn row
     = lp_attributes (get entity "name") "series_ordering_type").
Proof.
  cbn. unfold render_cell. cbn. split.
  - intros ->. reflexivity.
  - intros entity ->. reflexivity.
Qed.

Lemma ordering_type_cell_resolves_witness :
  let registry : gmap Z value :=
    {[ 1%Z := VObj {["name" := VStr "Automatic"]} ]} in
  let column := @seriesOrderingTypeColumn (with_ordering_types registry) in
  render_cell column {["orderingTypeID" := VNum 2]} = VNull ∧
  render_cell column {["orderingTypeID" := VNum 1]} = VStr "Automatic".
Proof.
  intros registry column. split.
  - apply (proj1 (@ordering_type_cell_resolves (with_ordering_types registry)
                    {["orderingTypeID" := VNum 2]})).
    reflexivity.
  - subst column.
    rewrite (proj2 (@ordering_type_cell_resolves
                      (with_ordering_types registry)
                      {["orderingTypeID" := VNum 1]})
               {["name" := VStr "Automatic"]});
      reflexivity.
Defined.

(** ** More on the actions column *)

Lemma action_item_keys_cons `{Collaborators} (p : string * string)
    (rest : list (string * string)) (row : object) :
  item_keys (render_cell (defineActionsColumn (p :: rest)) row)
  = Some (p.2 ++ "-first") :: (Some <$> (snd <$> rest)).
Proof.
  rewrite action_item_keys, imap_cons, action_key_first. f_equal.
  rewrite <- list_fmap_compose, <- imap_const. apply imap_ext.
  intros i q _. cbn. rewrite action_key_later. reflexivity.
Qed.

Lemma actions_cell_rendered_cons `{Collaborators} (p : string * string)
    (rest : list (string * string)) (row : object) :
  rendered (render_cell (defineActionsColumn (p :: rest)) row)
  = entityLink row p
    :: (rest ≫= λ q, [VStr " | "; entityLink row q]).
Proof.
  unfold render_cell. cbn [Cell defineActionsColumn].
  unfold jsx at 1. rewrite rendered_fragment. cbn [mbind list_bind].
  rewrite app_nil_r, rendered_array, imap_cons. cbn [mbind list_bind].
  change (rendered (jsx_keyed Fragment (action_key p 0) []
                      [VNull; entityLink row p]))
    with [entityLink row p].
  cbn [app]. f_equal.
  rewrite <- (rendered_later_actions row 0). reflexivity.
Qed.

(** X9.  The keys of a non-empty actions cell are pairwise different
    exactly when the paths of the entries after the first are pairwise
    different and none of them is the first path followed by
    ["-first"]. *)
Theorem action_keys_unique_iff `{Collaborators} (p : string * string)
    (rest : list (string * string)) (row : object) :
  NoDup (item_keys (render_cell (defineActionsColumn (p :: rest)) row)) ↔
  NoDup (snd <$> rest) ∧ p.2 ++ "-first" ∉ snd <$> rest.
Proof.
  rewrite action_item_keys_cons, NoDup_cons.
  rewrite (list_elem_of_fmap_inj Some), (NoDup_fmap Some).
  split; intros [? ?]; split; assumption.
Qed.

Lemma later_actions_counts (row : object) (rest : list (string * string)) :
  let out := rest ≫= λ q, [VStr " | "; entityLink row q] in
  length (List.filter is_link out) = length rest ∧
  length (List.filter is_separator out) = length rest ∧
  length out = 2 * length rest.
Proof.
  induction rest as [| q rest (IHlink & IHsep & IHlen)];
    [repeat split |].
  cbn [mbind list_bind] in *. cbn. rewrite IHlink, IHsep, IHlen.
  repeat split; lia.
Qed.

(** X10.  An actions cell puts on the page as many links as there are
    pairs and one separator fewer (none for the empty list, for which
    nothing is rendered at all), and nothing else. *)
Theorem actions_cell_counts `{Collaborators}
    (actions : list (string * string)) (row : object) :
  let out := rendered (render_cell (defineActionsColumn actions) row) in
  length (List.filter is_link out) = length actions ∧
  length (List.filter is_separator out) = length actions - 1 ∧
  length out = 2 * length actions - 1 ∧
  (actions = [] → out = []).
Proof.
  destruct actions as [| p rest]; [repeat split |].
  cbn zeta. rewrite actions_cell_rendered_cons.
  pose proof (later_actions_counts row rest) as (Hlink & Hsep & Hlen).
  cbn zeta in Hlink, Hsep, Hlen. cbn. rewrite Hlink, Hsep, Hlen.
  repeat split; first [lia | discriminate].
Qed.

(** X11.  Adding entries at the end of a non-empty list of actions
    leaves what was rendered in place and appends a separator and a
    link for each new entry; the keys so far stay, and each new entry
    is keyed by its bare path. *)
Theorem actions_append `{Collaborators}
    (actions more : list (string * string)) (row : object) :
  actions ≠ [] →
  rendered (render_cell (defineActionsColumn (actions ++ more)) row)
  = (rendered (render_cell (defineActionsColumn actions) row)
     ++ (more ≫= λ q, [VStr " | "; entityLink row q]))%list ∧
  item_keys (render_cell (defineActionsColumn (actions ++ more)) row)
  = (item_keys (render_cell (defineActionsColumn actions) row)
     ++ (Some <$> (snd <$> more)))%list.
Proof.
  destruct actions as [| p rest]; [congruence |]. intros _.
  change ((p :: rest) ++ more)%list with (p :: (rest ++ more)%list).
  rewrite !actions_cell_rendered_cons, !action_item_keys_cons.
  rewrite bind_app, !fmap_app. split; reflexivity.
Qed.

Lemma actions_append_witness :
  let row : object := {["id" := VNum 42]} in
  rendered (render_cell
              (@defineActionsColumn untranslated
                 ([("Edit", "edit")] ++ [("Remove", "remove")])%list) row)
  = (rendered (render_cell
                 (@defineActionsColumn untranslated [("Edit", "edit")]) row)
     ++ [VStr " | "; entityLink row ("Remove", "remove")])%list.
Proof.
  intros row.
  apply (@actions_append untranslated [("Edit", "edit")]
           [("Remove", "remove")] row).
  discriminate.
Defined.

(** The other way round the keys do not compose: an entry put in
    front of a list takes the ["-first"] suffix away from the entry
    that led it. *)
Example action_key_changes_when_no_longer_first :
  item_keys (render_cell
               (@defineActionsColumn untranslated [("Remove", "remove")]) ∅)
  = [Some "remove-first"] ∧
  item_keys (render_cell
               (@defineActionsColumn untranslated
                  [("Edit", "edit"); ("Remove", "remove")]) ∅)
  = [Some "edit-first"; Some "remove"].
Proof. split; reflexivity. Qed.
